(** * CanvasNode: a two-field mutable object with a derived getter

    Shallow embedding of [src/030-classes/108.5-getters.solution.ts].

    The class is tiny, but what the specification says about it (fresh
    snapshots, no aliasing, no failure, values stored verbatim) is about
    JavaScript's object model, so the embedding keeps that model:

    - a [number] is an IEEE 754 binary64 value (Rocq's primitive [float],
      which like JavaScript has one NaN, two zeros and two infinities);
    - a [value] is [undefined], [null], a number or a reference;
    - an object is a finite map from property names to values, and the
      heap a finite map from locations to objects, so that two references
      can be told apart and sharing can be stated;
    - code runs in a state-and-exception monad over the heap: member
      access on [undefined]/[null] throws [TypeError] as in JavaScript.

    Objects are plain ones, as object literals and [new CanvasNode] make
    them: own data properties that can be read and written. Prototype
    chains, accessor properties and frozen objects are not modelled, and
    no statement below is about them. *)

From Stdlib Require Import ZArith Bool Floats.
From stdpp Require Import base option list gmap strings.

Local Open Scope string_scope.

(** ** Values, objects, heap *)

Definition number := float.

Definition loc := positive.

Inductive value : Type :=
  | Undefined
  | Null
  | Num (n : number)
  | Ref (l : loc).

Arguments Num n%_float_scope.

Abbreviation object := (gmap string value).
Abbreviation heap := (gmap loc object).

(** ** The monad the methods run in *)

Inductive error : Type :=
  | TypeError      (* the JavaScript exception *)
  | DanglingRef.   (* a reference outside the heap: no program creates one *)

Inductive result (A : Type) : Type :=
  | Ok (a : A)
  | Throw (e : error).
Arguments Ok {A} a.
Arguments Throw {A} e.

Definition M (A : Type) : Type := heap -> result (A * heap).

Definition ret {A} (a : A) : M A := fun h => Ok (a, h).

Definition bind {A B} (m : M A) (k : A -> M B) : M B :=
  fun h => match m h with
           | Ok (a, h') => k a h'
           | Throw e => Throw e
           end.

Notation "x <- m ;; k" := (bind m (fun x => k))
  (at level 100, m at next level, right associativity).
Notation "m ;;; k" := (bind m (fun _ => k))
  (at level 100, right associativity).

(** ** JavaScript primitives used by the class *)

(** An object literal or [new]: a fresh location holding the object. *)
Definition new_object (o : object) : M value :=
  fun h => let l := fresh (dom h) in Ok (Ref l, <[l := o]> h).

(** [v.k]: throws on a nullish receiver; an absent property reads as
    [undefined]; a number primitive has no own properties. *)
Definition get_property (v : value) (k : string) : M value :=
  fun h => match v with
           | Undefined | Null => Throw TypeError
           | Num _ => Ok (Undefined, h)
           | Ref l => match h !! l with
                      | Some o => Ok (default Undefined (o !! k), h)
                      | None => Throw DanglingRef
                      end
           end.

(** [v?.k]: [undefined] on a nullish receiver, [v.k] otherwise. *)
Definition optional_chain (v : value) (k : string) : M value :=
  match v with
  | Undefined | Null => ret Undefined
  | _ => get_property v k
  end.

(** [v ?? d]: [d] exactly when [v] is [undefined] or [null]. *)
Definition nullish_coalesce (v d : value) : value :=
  match v with
  | Undefined | Null => d
  | _ => v
  end.

(** [v.k = w] in strict mode (class bodies are strict). *)
Definition set_property (v : value) (k : string) (w : value) : M unit :=
  fun h => match v with
           | Undefined | Null | Num _ => Throw TypeError
           | Ref l => match h !! l with
                      | Some o => Ok (tt, <[l := <[k := w]> o]> h)
                      | None => Throw DanglingRef
                      end
           end.

(** ** The class *)

Module CanvasNode.

(** [new CanvasNode(position)]: the instance is created with the two
    declared fields, then the constructor body assigns them.
<<
    constructor(position?: { x: number; y: number }) {
      this.x = position?.x ?? 0;
      this.y = position?.y ?? 0;
    }
>> *)
Definition constructor (position : value) : M value :=
  this <- new_object {[ "x" := Undefined; "y" := Undefined ]} ;;
  px <- optional_chain position "x" ;;
  set_property this "x" (nullish_coalesce px (Num 0)) ;;;
  py <- optional_chain position "y" ;;
  set_property this "y" (nullish_coalesce py (Num 0)) ;;;
  ret this.

(** [get position() { return { x: this.x, y: this.y }; }] *)
Definition position (this : value) : M value :=
  vx <- get_property this "x" ;;
  vy <- get_property this "y" ;;
  new_object {[ "x" := vx; "y" := vy ]}.

(** [move(x: number, y: number) { this.x = x; this.y = y; }] *)
Definition move (this : value) (x y : number) : M unit :=
  set_property this "x" (Num x) ;;;
  set_property this "y" (Num y).

Arguments move this (x y)%_float_scope.

End CanvasNode.

(** ** Call sites and observations *)

(** A point-shaped object, as the literals of the tests build them. *)
Definition point (vx vy : value) : object := {[ "x" := vx; "y" := vy ]}.

(** What a caller writes between the braces of the constructor's
    argument: each of the two options is there or not. *)
Record config : Type := Config { cfg_x : option number; cfg_y : option number }.

(** The object literal of a configuration: only the supplied keys. *)
Definition literal (c : config) : object :=
  match cfg_x c, cfg_y c with
  | Some a, Some b => {[ "x" := Num a; "y" := Num b ]}
  | Some a, None => {[ "x" := Num a ]}
  | None, Some b => {[ "y" := Num b ]}
  | None, None => ∅
  end.

(** [new CanvasNode()] and [new CanvasNode({ ... })]. *)
Definition new_CanvasNode (arg : option config) : M value :=
  match arg with
  | None => CanvasNode.constructor Undefined
  | Some c => p <- new_object (literal c) ;; CanvasNode.constructor p
  end.

(** The value a configuration option ends up as: supplied, or 0. *)
Definition supplied_or_zero (arg : option config) (f : config -> option number) : number :=
  match arg with
  | Some c => match f c with Some a => a | None => 0%float end
  | None => 0%float
  end.

(** Reading a whole object by value, as a deep comparison does. *)
Definition read (v : value) : M object :=
  fun h => match v with
           | Ref l => match h !! l with
                      | Some o => Ok (o, h)
                      | None => Throw DanglingRef
                      end
           | _ => Throw TypeError
           end.

(** [canvasNode.position] compared by value. *)
Definition position_query (this : value) : M object :=
  p <- CanvasNode.position this ;; read p.

(** Mutating an object from outside: a list of assignments [v.k = w]. *)
Fixpoint assign_all (v : value) (ws : list (string * value)) : M unit :=
  match ws with
  | [] => ret tt
  | (k, w) :: ws => set_property v k w ;;; assign_all v ws
  end.

(** The snapshot the getter builds from a node's object. *)
Definition snapshot_of (o : object) : object :=
  point (default Undefined (o !! "x")) (default Undefined (o !! "y")).

(** ** State predicates *)

(** [n] holds an object whose fields [x] and [y] are [vx] and [vy]. *)
Definition node_at (h : heap) (n : loc) (vx vy : value) : Prop :=
  exists o, h !! n = Some o /\ o !! "x" = Some vx /\ o !! "y" = Some vy.

(** The argument matches the declared parameter type
    [{ x: number; y: number } | undefined]. *)
Definition well_typed_position (h : heap) (v : value) : Prop :=
  v = Undefined \/
  exists p o a b, v = Ref p /\ h !! p = Some o /\
                  o !! "x" = Some (Num a) /\ o !! "y" = Some (Num b).

(** The value is a reference into the heap or a primitive. *)
Definition valid (h : heap) (v : value) : Prop :=
  match v with
  | Ref l => is_Some (h !! l)
  | _ => True
  end.

(** What [v?.k] evaluates to when it does not throw. *)
Definition chained (h : heap) (v : value) (k : string) : value :=
  match v with
  | Ref l => match h !! l with
             | Some o => default Undefined (o !! k)
             | None => Undefined
             end
  | _ => Undefined
  end.

(** The invariant of the data model: both fields are finite numbers. *)
Definition finite_node (h : heap) (n : loc) : Prop :=
  exists a b, node_at h n (Num a) (Num b) /\
              is_finite a = true /\ is_finite b = true.

(** ** Sequences of operations *)

(** A program over the nodes built so far, numbered in creation order. *)
Inductive op : Type :=
  | New (arg : option config)
  | Move (i : nat) (x y : number)
  | Position (i : nat).

Arguments Move i (x y)%_float_scope.

(** One operation; it reports, by value, the state of the node it built
    or moved, or the snapshot it was given. *)
Definition exec (nodes : list value) (o : op) : M (list value * object) :=
  match o with
  | New arg =>
      n <- new_CanvasNode arg ;; s <- read n ;; ret ((nodes ++ [n])%list, s)
  | Move i x y =>
      let n := default Undefined (nodes !! i) in
      CanvasNode.move n x y ;;; s <- read n ;; ret (nodes, s)
  | Position i =>
      let n := default Undefined (nodes !! i) in
      s <- position_query n ;; ret (nodes, s)
  end.

Fixpoint run (nodes : list value) (ops : list op) : M (list value * list object) :=
  match ops with
  | [] => ret (nodes, [])
  | o :: ops =>
      r <- exec nodes o ;;
      rs <- run (fst r) ops ;;
      ret (fst rs, snd r :: snd rs)
  end.

(** What a run lets its caller see: the reports, or the exception. *)
Definition observe (ops : list op) (h : heap) : result (list object) :=
  match run [] ops h with
  | Ok (r, _) => Ok (snd r)
  | Throw e => Throw e
  end.

(** Two runs agree on a node when each holds a reference to an object and
    the two objects have the same contents; they agree on the nodes built
    so far when they do so index by index (no node is listed twice). *)
Definition same_node (h1 h2 : heap) (v1 v2 : value) : Prop :=
  exists l1 l2 o,
    v1 = Ref l1 /\ v2 = Ref l2 /\ h1 !! l1 = Some o /\ h2 !! l2 = Some o.

Definition same_nodes (h1 h2 : heap) (ns1 ns2 : list value) : Prop :=
  Forall2 (same_node h1 h2) ns1 ns2 /\ NoDup ns1 /\ NoDup ns2.

(** Two outcomes a caller cannot tell apart: the same exception, or the
    same reports, with the nodes in agreement afterwards. *)
Definition same_outcome {A : Type}
    (r1 r2 : result ((list value * A) * heap)) : Prop :=
  match r1, r2 with
  | Ok ((ns1, s1), h1), Ok ((ns2, s2), h2) =>
      s1 = s2 /\ same_nodes h1 h2 ns1 ns2
  | Throw e1, Throw e2 => e1 = e2
  | _, _ => False
  end.

(** ** Compositions of the operations *)

(** [node.move(x1, y1); node.move(x2, y2); ...] *)
Fixpoint move_all (this : value) (ms : list (number * number)) : M unit :=
  match ms with
  | [] => ret tt
  | (x, y) :: ms => CanvasNode.move this x y ;;; move_all this ms
  end.

(** [new CanvasNode(node.position)] *)
Definition clone (this : value) : M value :=
  p <- CanvasNode.position this ;; CanvasNode.constructor p.

(** Whether a value counts as absent for [??]. *)
Definition nullish (v : value) : bool :=
  match v with
  | Undefined | Null => true
  | _ => false
  end.

(** Every index of a program names a node built before it is used,
    [k] nodes being there at the start. *)
Fixpoint well_scoped (k : nat) (ops : list op) : bool :=
  match ops with
  | [] => true
  | New _ :: ops => well_scoped (S k) ops
  | Move i _ _ :: ops => (i <? k)%nat && well_scoped k ops
  | Position i :: ops => (i <? k)%nat && well_scoped k ops
  end.

(** The nodes listed are references to objects of the heap. *)
Definition nodes_allocated (h : heap) (ns : list value) : Prop :=
  Forall (fun v => exists l, v = Ref l /\ is_Some (h !! l)) ns.

(** ** A function of the accompanying text *)

(** [function sellAlbum(album: Album, price: number, quantity: number) {
      return price * quantity;
    }]: binary64 multiplication, rounding to nearest even. *)
Definition sellAlbum (album : value) (price quantity : number) : M value :=
  ret (Num (price * quantity)).

Arguments sellAlbum album (price quantity)%_float_scope.

(** * Proofs *)

(** The test file's two scenarios, run from the empty heap. *)
Example should_be_able_to_move :
  (n <- CanvasNode.constructor Undefined ;;
   p0 <- position_query n ;;
   CanvasNode.move n 10 20 ;;;
   p1 <- position_query n ;;
   ret (p0, p1)) ∅ =
  Ok ((point (Num 0) (Num 0), point (Num 10) (Num 20)),
      {[ 1%positive := point (Num 10) (Num 20);
         2%positive := point (Num 0) (Num 0);
         3%positive := point (Num 10) (Num 20) ]}).
Proof. vm_compute. reflexivity. Qed.

Example should_receive_an_initial_position :
  match (n <- new_CanvasNode (Some (Config (Some 10%float) (Some 20%float))) ;;
         position_query n) ∅ with
  | Ok (p, _) => p = point (Num 10) (Num 20)
  | Throw _ => False
  end.
Proof. vm_compute. reflexivity. Qed.

(** Member access through [undefined] is the failure the language has;
    the getter called on nothing runs into it. *)
Example member_of_undefined_throws :
  get_property Undefined "x" ∅ = Throw TypeError /\
  CanvasNode.position Undefined ∅ = Throw TypeError /\
  CanvasNode.move Null 1 2 ∅ = Throw TypeError.
Proof. repeat split; reflexivity. Qed.

(** A run and what it reports; an index that names no node throws. *)
Example run_reports :
  observe [New None; Position 0; Move 0 10 20; Position 0;
           New (Some (Config None (Some 5%float))); Position 1; Position 0] ∅ =
  Ok [point (Num 0) (Num 0); point (Num 0) (Num 0);
      point (Num 10) (Num 20); point (Num 10) (Num 20);
      point (Num 0) (Num 5); point (Num 0) (Num 5); point (Num 10) (Num 20)] /\
  observe [New None; Move 1 10 20] ∅ = Throw TypeError.
Proof. split; vm_compute; reflexivity. Qed.

(** ** Equations of the primitives *)

Section Primitives.

Implicit Types (h : heap) (o : object) (n p l : loc) (v w : value).

Lemma fresh_unallocated h : h !! fresh (dom h) = None.
Proof. apply not_elem_of_dom, is_fresh. Qed.

Lemma allocated_not_fresh h l o : h !! l = Some o -> l <> fresh (dom h).
Proof. intros Hl ->. rewrite fresh_unallocated in Hl. discriminate. Qed.

Lemma bind_run {A B} (m : M A) (k : A -> M B) h a h' :
  m h = Ok (a, h') -> bind m k h = k a h'.
Proof. unfold bind. intros ->. reflexivity. Qed.

Lemma new_object_run o h :
  new_object o h = Ok (Ref (fresh (dom h)), <[fresh (dom h) := o]> h).
Proof. reflexivity. Qed.

Lemma get_property_run h l o k :
  h !! l = Some o ->
  get_property (Ref l) k h = Ok (default Undefined (o !! k), h).
Proof. unfold get_property. intros ->. reflexivity. Qed.

Lemma set_property_run h l o k w :
  h !! l = Some o ->
  set_property (Ref l) k w h = Ok (tt, <[l := <[k := w]> o]> h).
Proof. unfold set_property. intros ->. reflexivity. Qed.

Lemma optional_chain_run h v k :
  valid h v -> optional_chain v k h = Ok (chained h v k, h).
Proof.
  destruct v as [| | a | l]; simpl; try reflexivity.
  intros [o Ho]. unfold get_property. rewrite Ho. reflexivity.
Qed.

Lemma read_run h l o : h !! l = Some o -> read (Ref l) h = Ok (o, h).
Proof. unfold read. intros ->. reflexivity. Qed.

Lemma valid_alloc h v l o : h !! l = None -> valid h v -> valid (<[l := o]> h) v.
Proof.
  destruct v as [| | a | p]; simpl; trivial.
  intros Hl [o' Hp]. exists o'.
  rewrite lookup_insert_ne; [assumption | congruence].
Qed.

Lemma chained_alloc h v l o k :
  h !! l = None -> valid h v -> chained (<[l := o]> h) v k = chained h v k.
Proof.
  destruct v as [| | a | p]; simpl; trivial.
  intros Hl [o' Hp]. rewrite lookup_insert_ne; [reflexivity | congruence].
Qed.

(** Points *)

Lemma point_x vx vy : point vx vy !! "x" = Some vx.
Proof. reflexivity. Qed.

Lemma point_y vx vy : point vx vy !! "y" = Some vy.
Proof. reflexivity. Qed.

Lemma point_assign vx vy a b :
  <["y" := b]> (<["x" := a]> (point vx vy)) = point a b.
Proof.
  unfold point. apply map_eq. intros k.
  destruct (decide (k = "y")) as [-> | Hy]; [reflexivity |].
  destruct (decide (k = "x")) as [-> | Hx]; [reflexivity |].
  rewrite !lookup_insert_ne by congruence.
  rewrite !lookup_singleton_ne by congruence. reflexivity.
Qed.

Lemma node_at_point h n vx vy : h !! n = Some (point vx vy) -> node_at h n vx vy.
Proof. intros H. exists (point vx vy). auto using point_x, point_y. Qed.

End Primitives.

(** ** Equations of the three methods *)

Section Methods.

Implicit Types (h : heap) (o : object) (n p l : loc) (v w : value).

(** The node is a new object; each field is [position?.k ?? 0]. *)
Lemma constructor_run h v :
  valid h v ->
  CanvasNode.constructor v h =
  Ok (Ref (fresh (dom h)),
      <[fresh (dom h) := point (nullish_coalesce (chained h v "x") (Num 0))
                               (nullish_coalesce (chained h v "y") (Num 0))]> h).
Proof.
  intros Hv. unfold CanvasNode.constructor.
  pose proof (fresh_unallocated h) as Hn. set (n := fresh (dom h)) in *.
  rewrite (bind_run _ _ _ _ _ (new_object_run _ h)). fold n.
  rewrite (bind_run _ _ _ _ _
             (optional_chain_run _ v "x" (valid_alloc _ _ _ _ Hn Hv))).
  rewrite (bind_run _ _ _ _ _
             (set_property_run _ n _ "x" _ (lookup_insert_eq _ _ _))).
  rewrite insert_insert_eq.
  rewrite (bind_run _ _ _ _ _
             (optional_chain_run _ v "y" (valid_alloc _ _ _ _ Hn Hv))).
  rewrite (bind_run _ _ _ _ _
             (set_property_run _ n _ "y" _ (lookup_insert_eq _ _ _))).
  rewrite insert_insert_eq. unfold ret.
  rewrite !chained_alloc by assumption.
  change ({[ "x" := Undefined; "y" := Undefined ]} : object)
    with (point Undefined Undefined).
  rewrite point_assign. reflexivity.
Qed.

(** The getter reads both fields and allocates the snapshot. *)
Lemma position_run h n o :
  h !! n = Some o ->
  CanvasNode.position (Ref n) h =
  Ok (Ref (fresh (dom h)),
      <[fresh (dom h) := point (default Undefined (o !! "x"))
                               (default Undefined (o !! "y"))]> h).
Proof.
  intros Hn. unfold CanvasNode.position.
  rewrite (bind_run _ _ _ _ _ (get_property_run _ _ _ "x" Hn)).
  rewrite (bind_run _ _ _ _ _ (get_property_run _ _ _ "y" Hn)).
  reflexivity.
Qed.

Lemma position_query_run h n o :
  h !! n = Some o ->
  position_query (Ref n) h =
  Ok (point (default Undefined (o !! "x")) (default Undefined (o !! "y")),
      <[fresh (dom h) := point (default Undefined (o !! "x"))
                               (default Undefined (o !! "y"))]> h).
Proof.
  intros Hn. unfold position_query.
  rewrite (bind_run _ _ _ _ _ (position_run _ _ _ Hn)).
  apply read_run, lookup_insert_eq.
Qed.

(** Both assignments happen, on the one object [this] refers to. *)
Lemma move_run h n o a b :
  h !! n = Some o ->
  CanvasNode.move (Ref n) a b h =
  Ok (tt, <[n := <["y" := Num b]> (<["x" := Num a]> o)]> h).
Proof.
  intros Hn. unfold CanvasNode.move.
  rewrite (bind_run _ _ _ _ _ (set_property_run _ _ _ "x" (Num a) Hn)).
  rewrite (set_property_run _ n _ "y" (Num b) (lookup_insert_eq _ _ _)).
  rewrite insert_insert_eq. reflexivity.
Qed.

Lemma moved_fields o a b :
  (<["y" := Num b]> (<["x" := Num a]> o)) !! "x" = Some (Num a) /\
  (<["y" := Num b]> (<["x" := Num a]> o)) !! "y" = Some (Num b).
Proof.
  split.
  - rewrite lookup_insert_ne by discriminate. apply lookup_insert_eq.
  - apply lookup_insert_eq.
Qed.

Lemma node_at_query h n vx vy :
  node_at h n vx vy ->
  position_query (Ref n) h =
  Ok (point vx vy, <[fresh (dom h) := point vx vy]> h).
Proof.
  intros (o & Hn & Hx & Hy).
  rewrite (position_query_run _ _ _ Hn), Hx, Hy. reflexivity.
Qed.

End Methods.

(** ** Construction from a call site *)

Section Construction.

Implicit Types (h : heap) (o : object) (n p l : loc) (arg : option config).

Lemma literal_x c :
  nullish_coalesce (default Undefined (literal c !! "x")) (Num 0) =
  Num (supplied_or_zero (Some c) cfg_x).
Proof. destruct c as [[a|] [b|]]; reflexivity. Qed.

Lemma literal_y c :
  nullish_coalesce (default Undefined (literal c !! "y")) (Num 0) =
  Num (supplied_or_zero (Some c) cfg_y).
Proof. destruct c as [[a|] [b|]]; reflexivity. Qed.

(** A construction allocates the node (and the literal, if any) and
    leaves every object that was there as it was. *)
Lemma new_CanvasNode_run arg h :
  exists n h1,
    new_CanvasNode arg h = Ok (Ref n, h1) /\
    h !! n = None /\
    h1 !! n = Some (point (Num (supplied_or_zero arg cfg_x))
                          (Num (supplied_or_zero arg cfg_y))) /\
    (forall l o, h !! l = Some o -> h1 !! l = Some o).
Proof.
  destruct arg as [c|]; simpl.
  - pose proof (fresh_unallocated h) as Hp. set (p := fresh (dom h)) in *.
    set (h0 := <[p := literal c]> h).
    assert (Hp0 : h0 !! p = Some (literal c)) by apply lookup_insert_eq.
    pose proof (fresh_unallocated h0) as Hn. set (n := fresh (dom h0)) in *.
    exists n, (<[n := point (Num (supplied_or_zero (Some c) cfg_x))
                            (Num (supplied_or_zero (Some c) cfg_y))]> h0).
    assert (Hnp : p <> n) by (intros E; rewrite E in Hp0; congruence).
    split; [| split; [| split]].
    + rewrite (bind_run _ _ _ _ _ (new_object_run _ h)). fold p h0.
      rewrite constructor_run by (exists (literal c); exact Hp0).
      fold n. simpl chained. rewrite Hp0, literal_x, literal_y. reflexivity.
    + unfold h0 in Hn. rewrite lookup_insert_ne in Hn; assumption.
    + apply lookup_insert_eq.
    + intros l o Hl.
      assert (l <> p) by congruence.
      assert (h0 !! l = Some o) as Hl0
        by (unfold h0; rewrite lookup_insert_ne; auto).
      rewrite lookup_insert_ne; [assumption | congruence].
  - pose proof (fresh_unallocated h) as Hn. set (n := fresh (dom h)) in *.
    exists n, (<[n := point (Num 0) (Num 0)]> h).
    split; [| split; [| split]].
    + rewrite constructor_run by exact I. reflexivity.
    + assumption.
    + apply lookup_insert_eq.
    + intros l o Hl. rewrite lookup_insert_ne; [assumption | congruence].
Qed.

(** Construction followed by a position query, by value. *)
Lemma new_CanvasNode_query arg h :
  exists h',
    (n <- new_CanvasNode arg ;; position_query n) h =
    Ok (point (Num (supplied_or_zero arg cfg_x))
              (Num (supplied_or_zero arg cfg_y)), h').
Proof.
  destruct (new_CanvasNode_run arg h) as (n & h1 & Hrun & _ & Hn & _).
  rewrite (bind_run _ _ _ _ _ Hrun).
  rewrite (node_at_query _ _ _ _ (node_at_point _ _ _ _ Hn)). eauto.
Qed.

End Construction.

(** * The claims *)

(** C1. For every node and every pair of numbers [a], [b], [move] succeeds
    and overwrites both fields with the supplied values, whatever they held
    and whatever [a] and [b] are; no other object changes, and the next
    position query returns [{x: a, y: b}]. *)
Theorem move_overwrites_both_fields (h : heap) (n : loc) (o : object) (a b : number) :
  h !! n = Some o ->
  exists h1 h2,
    CanvasNode.move (Ref n) a b h = Ok (tt, h1) /\
    node_at h1 n (Num a) (Num b) /\
    (forall l, l <> n -> h1 !! l = h !! l) /\
    position_query (Ref n) h1 = Ok (point (Num a) (Num b), h2).
Proof.
  intros Hn.
  set (o1 := <["y" := Num b]> (<["x" := Num a]> o)).
  assert (Hnode : node_at (<[n := o1]> h) n (Num a) (Num b)).
  { exists o1. split; [apply lookup_insert_eq | apply moved_fields]. }
  eexists _, _. split; [apply (move_run _ _ _ _ _ Hn) | fold o1].
  split; [exact Hnode | split].
  - intros l Hl. apply lookup_insert_ne. congruence.
  - apply node_at_query, Hnode.
Qed.

(** The test's scenario: a default node, then [move(10, 20)]. *)
Lemma move_overwrites_both_fields_witness :
  let h : heap := {[ 1%positive := point (Num 0) (Num 0) ]} in
  h !! 1%positive = Some (point (Num 0) (Num 0)) /\
  exists h1 h2,
    CanvasNode.move (Ref 1%positive) 10 20 h = Ok (tt, h1) /\
    node_at h1 1%positive (Num 10) (Num 20) /\
    (forall l, l <> 1%positive -> h1 !! l = h !! l) /\
    position_query (Ref 1%positive) h1 = Ok (point (Num 10) (Num 20), h2).
Proof.
  split; [reflexivity |].
  apply (move_overwrites_both_fields _ 1%positive (point (Num 0) (Num 0))
           10%float 20%float).
  reflexivity.
Defined.

(** C2. For every construction input (no argument, or a configuration in
    which each option is supplied or not) construction succeeds with a new
    node whose fields are the supplied values, or 0 where absent, and the
    position query returns them; with no configuration that is
    [{x: 0, y: 0}], with [{x: 10, y: 20}] it is [{x: 10, y: 20}]. *)
Theorem constructor_initializes_fields (h : heap) :
  (forall arg, exists n h1 h2,
      new_CanvasNode arg h = Ok (Ref n, h1) /\
      h !! n = None /\
      node_at h1 n (Num (supplied_or_zero arg cfg_x))
                   (Num (supplied_or_zero arg cfg_y)) /\
      position_query (Ref n) h1 =
      Ok (point (Num (supplied_or_zero arg cfg_x))
                (Num (supplied_or_zero arg cfg_y)), h2)) /\
  (exists h', (n <- new_CanvasNode None ;; position_query n) h =
              Ok (point (Num 0) (Num 0), h')) /\
  (exists h', (n <- new_CanvasNode (Some (Config (Some 10%float) (Some 20%float))) ;;
               position_query n) h =
              Ok (point (Num 10) (Num 20), h')).
Proof.
  split; [| split].
  - intros arg.
    destruct (new_CanvasNode_run arg h) as (n & h1 & Hrun & Hfresh & Hn & _).
    apply node_at_point in Hn.
    exists n, h1. eexists. split; [exact Hrun |].
    split; [exact Hfresh |]. split; [exact Hn |].
    apply node_at_query, Hn.
  - apply (new_CanvasNode_query None).
  - apply (new_CanvasNode_query (Some (Config (Some 10%float) (Some 20%float)))).
Qed.

(** C3. The two options are independent: with only [x] supplied the
    position query returns [{x: a, y: 0}], with only [y] supplied
    [{x: 0, y: b}]; in particular [{x: 10}] gives [{x: 10, y: 0}] and
    [{y: 20}] gives [{x: 0, y: 20}]. *)
Theorem options_default_independently (h : heap) :
  (forall a, exists h',
      (n <- new_CanvasNode (Some (Config (Some a) None)) ;; position_query n) h =
      Ok (point (Num a) (Num 0), h')) /\
  (forall b, exists h',
      (n <- new_CanvasNode (Some (Config None (Some b))) ;; position_query n) h =
      Ok (point (Num 0) (Num b), h')) /\
  (exists h',
      (n <- new_CanvasNode (Some (Config (Some 10%float) None)) ;; position_query n) h =
      Ok (point (Num 10) (Num 0), h')) /\
  (exists h',
      (n <- new_CanvasNode (Some (Config None (Some 20%float))) ;; position_query n) h =
      Ok (point (Num 0) (Num 20), h')).
Proof.
  split; [| split; [| split]].
  - intros a. apply (new_CanvasNode_query (Some (Config (Some a) None))).
  - intros b. apply (new_CanvasNode_query (Some (Config None (Some b)))).
  - apply (new_CanvasNode_query (Some (Config (Some 10%float) None))).
  - apply (new_CanvasNode_query (Some (Config None (Some 20%float)))).
Qed.

(** Assignments to one object change that object only. *)
Lemma assign_all_run (ws : list (string * value)) (h : heap) (r : loc) (s : object) :
  h !! r = Some s ->
  exists s', assign_all (Ref r) ws h = Ok (tt, <[r := s']> h).
Proof.
  revert h s. induction ws as [| [k w] ws IH]; intros h s Hr; simpl.
  - exists s. unfold ret. rewrite insert_id; [reflexivity | assumption].
  - rewrite (bind_run _ _ _ _ _ (set_property_run _ _ _ k w Hr)).
    destruct (IH (<[r := <[k := w]> s]> h) _ (lookup_insert_eq _ _ _)) as [s' Hs'].
    exists s'. rewrite Hs', insert_insert_eq. reflexivity.
Qed.

(** C4. The position query allocates its result: the reference it returns
    is to an object that did not exist before the call (so it is not the
    node, and no earlier snapshot), holding the node's [x] and [y].
    Whatever is then assigned to the snapshot's properties, the node is
    unchanged and its next position query returns the same values; and
    moving the node leaves the snapshot as it was. *)
Theorem snapshot_is_not_aliased (h : heap) (n : loc) (o : object) :
  h !! n = Some o ->
  exists r h1,
    CanvasNode.position (Ref n) h = Ok (Ref r, h1) /\
    h !! r = None /\ r <> n /\
    h1 !! r = Some (snapshot_of o) /\
    (forall ws, exists h2 h3,
        assign_all (Ref r) ws h1 = Ok (tt, h2) /\
        h2 !! n = Some o /\
        position_query (Ref n) h2 = Ok (snapshot_of o, h3)) /\
    (forall a b, exists h2,
        CanvasNode.move (Ref n) a b h1 = Ok (tt, h2) /\
        h2 !! r = Some (snapshot_of o)) /\
    (exists r' h2,
        CanvasNode.position (Ref n) h1 = Ok (Ref r', h2) /\ r' <> r).
Proof.
  intros Hn.
  pose proof (fresh_unallocated h) as Hr. set (r := fresh (dom h)) in *.
  set (h1 := <[r := snapshot_of o]> h).
  assert (Hrn : r <> n) by congruence.
  assert (Hr1 : h1 !! r = Some (snapshot_of o)) by apply lookup_insert_eq.
  assert (Hn1 : h1 !! n = Some o)
    by (unfold h1; rewrite lookup_insert_ne; assumption).
  exists r, h1. split; [apply position_run, Hn |].
  do 3 (split; [assumption |]). split; [| split].
  - intros ws. destruct (assign_all_run ws h1 r _ Hr1) as [s' Hs'].
    assert (Hn2 : <[r := s']> h1 !! n = Some o)
      by (rewrite lookup_insert_ne; assumption).
    eexists _, _. split; [exact Hs' |]. split; [exact Hn2 |].
    apply position_query_run, Hn2.
  - intros a b. eexists. split; [apply move_run, Hn1 |].
    rewrite lookup_insert_ne by congruence. exact Hr1.
  - eexists _, _. split; [apply position_run, Hn1 |].
    apply not_eq_sym, (allocated_not_fresh h1 r _ Hr1).
Qed.

Lemma snapshot_is_not_aliased_witness :
  let h : heap := {[ 1%positive := point (Num 10) (Num 20) ]} in
  h !! 1%positive = Some (point (Num 10) (Num 20)) /\
  exists r h1,
    CanvasNode.position (Ref 1%positive) h = Ok (Ref r, h1) /\
    h !! r = None /\ r <> 1%positive /\
    h1 !! r = Some (snapshot_of (point (Num 10) (Num 20))) /\
    (forall ws, exists h2 h3,
        assign_all (Ref r) ws h1 = Ok (tt, h2) /\
        h2 !! 1%positive = Some (point (Num 10) (Num 20)) /\
        position_query (Ref 1%positive) h2 =
        Ok (snapshot_of (point (Num 10) (Num 20)), h3)) /\
    (forall a b, exists h2,
        CanvasNode.move (Ref 1%positive) a b h1 = Ok (tt, h2) /\
        h2 !! r = Some (snapshot_of (point (Num 10) (Num 20)))) /\
    (exists r' h2,
        CanvasNode.position (Ref 1%positive) h1 = Ok (Ref r', h2) /\ r' <> r).
Proof.
  split; [reflexivity |].
  apply (snapshot_is_not_aliased _ 1%positive (point (Num 10) (Num 20))).
  reflexivity.
Defined.

(** C6. Two position queries in a row succeed and return two distinct
    references to objects with the same contents; the node's object, and
    every other object that existed before, is what it was. *)
Theorem position_query_has_no_side_effect (h : heap) (n : loc) (o : object) :
  h !! n = Some o ->
  exists r1 r2 h1 h2,
    CanvasNode.position (Ref n) h = Ok (Ref r1, h1) /\
    CanvasNode.position (Ref n) h1 = Ok (Ref r2, h2) /\
    r1 <> r2 /\
    h2 !! r1 = Some (snapshot_of o) /\
    h2 !! r2 = Some (snapshot_of o) /\
    h2 !! n = Some o /\
    (forall l o', h !! l = Some o' -> h2 !! l = Some o').
Proof.
  intros Hn.
  pose proof (fresh_unallocated h) as Hr1. set (r1 := fresh (dom h)) in *.
  set (h1 := <[r1 := snapshot_of o]> h).
  assert (Hs1 : h1 !! r1 = Some (snapshot_of o)) by apply lookup_insert_eq.
  assert (Hn1 : h1 !! n = Some o)
    by (unfold h1; rewrite lookup_insert_ne; congruence).
  pose proof (fresh_unallocated h1) as Hr2. set (r2 := fresh (dom h1)) in *.
  assert (Hne : r1 <> r2) by congruence.
  exists r1, r2, h1, (<[r2 := snapshot_of o]> h1).
  split; [apply position_run, Hn |]. split; [apply position_run, Hn1 |].
  split; [exact Hne |]. split; [| split; [| split]].
  - rewrite lookup_insert_ne by congruence. exact Hs1.
  - apply lookup_insert_eq.
  - rewrite lookup_insert_ne by congruence. exact Hn1.
  - intros l o' Hl.
    rewrite lookup_insert_ne.
    + unfold h1. rewrite lookup_insert_ne; congruence.
    + intros <-. unfold h1 in Hr2.
      rewrite lookup_insert_ne in Hr2; congruence.
Qed.

Lemma position_query_has_no_side_effect_witness :
  let h : heap := {[ 1%positive := point (Num 10) (Num 20) ]} in
  h !! 1%positive = Some (point (Num 10) (Num 20)) /\
  exists r1 r2 h1 h2,
    CanvasNode.position (Ref 1%positive) h = Ok (Ref r1, h1) /\
    CanvasNode.position (Ref 1%positive) h1 = Ok (Ref r2, h2) /\
    r1 <> r2 /\
    h2 !! r1 = Some (snapshot_of (point (Num 10) (Num 20))) /\
    h2 !! r2 = Some (snapshot_of (point (Num 10) (Num 20))) /\
    h2 !! 1%positive = Some (point (Num 10) (Num 20)) /\
    (forall l o', h !! l = Some o' -> h2 !! l = Some o').
Proof.
  split; [reflexivity |].
  apply (position_query_has_no_side_effect _ 1%positive (point (Num 10) (Num 20))).
  reflexivity.
Defined.

(** ** Finiteness *)

Lemma finite_node_point (h : heap) (n : loc) (a b : number) :
  h !! n = Some (point (Num a) (Num b)) ->
  is_finite a = true -> is_finite b = true -> finite_node h n.
Proof. intros Hn Ha Hb. exists a, b. auto using node_at_point. Qed.

Lemma finite_node_frame (h h' : heap) (n : loc) :
  (forall o, h !! n = Some o -> h' !! n = Some o) ->
  finite_node h n -> finite_node h' n.
Proof.
  intros Hframe (a & b & (o & Hn & Hx & Hy) & Ha & Hb).
  exists a, b. split; [| auto]. exists o. auto.
Qed.

Lemma finite_node_fields (h : heap) (n : loc) (o : object) :
  h !! n = Some o -> finite_node h n ->
  exists a b, o !! "x" = Some (Num a) /\ o !! "y" = Some (Num b) /\
              is_finite a = true /\ is_finite b = true.
Proof.
  intros Hn (a & b & (o' & Hn' & Hx & Hy) & Ha & Hb).
  rewrite Hn in Hn'. injection Hn' as <-. eauto 6.
Qed.

(** C5, as stated, fails. [number] has non-finite values and nothing
    rejects them: from a node at (0, 0), [move(Infinity, 0)] leaves
    [x = Infinity]; and [new CanvasNode({x: NaN, y: 0})] starts with
    [x = NaN]. *)
Lemma fields_can_be_non_finite :
  (let h : heap := {[ 1%positive := point (Num 0) (Num 0) ]} in
   finite_node h 1%positive /\
   exists h', CanvasNode.move (Ref 1%positive) infinity 0 h = Ok (tt, h') /\
              node_at h' 1%positive (Num infinity) (Num 0) /\
              ~ finite_node h' 1%positive) /\
  (exists n h', new_CanvasNode (Some (Config (Some nan) (Some 0%float))) ∅ =
                Ok (Ref n, h') /\
                node_at h' n (Num nan) (Num 0) /\
                ~ finite_node h' n).
Proof.
  split.
  - split.
    + apply (finite_node_point _ _ 0%float 0%float); reflexivity.
    + eexists. split; [vm_compute; reflexivity |].
      split.
      * eexists. repeat split; reflexivity.
      * intros Hfin.
        eapply finite_node_fields in Hfin; [| reflexivity].
        destruct Hfin as (a & b & Hx & _ & Ha & _).
        vm_compute in Hx. injection Hx as <-. discriminate Ha.
  - eexists _, _. split; [vm_compute; reflexivity |].
    split.
    + eexists. repeat split; reflexivity.
    + intros Hfin.
      eapply finite_node_fields in Hfin; [| reflexivity].
      destruct Hfin as (a & b & Hx & _ & Ha & _).
      vm_compute in Hx. injection Hx as <-. discriminate Ha.
Qed.

(** C5, amended. The fields are finite as long as the numbers supplied
    are: construction from a configuration whose supplied options are
    finite gives a node with finite fields (and disturbs no other node),
    and a move with finite arguments keeps them finite; the position query
    changes nothing and its snapshot is finite too. *)
Theorem finite_inputs_keep_fields_finite (h : heap) :
  (forall arg,
      is_finite (supplied_or_zero arg cfg_x) = true ->
      is_finite (supplied_or_zero arg cfg_y) = true ->
      exists n h1,
        new_CanvasNode arg h = Ok (Ref n, h1) /\ finite_node h1 n /\
        (forall m, finite_node h m -> finite_node h1 m)) /\
  (forall n a b,
      finite_node h n -> is_finite a = true -> is_finite b = true ->
      exists h1,
        CanvasNode.move (Ref n) a b h = Ok (tt, h1) /\ finite_node h1 n /\
        (forall m, finite_node h m -> finite_node h1 m)) /\
  (forall n,
      finite_node h n ->
      exists r h1,
        CanvasNode.position (Ref n) h = Ok (Ref r, h1) /\
        finite_node h1 r /\
        (forall m, finite_node h m -> finite_node h1 m)).
Proof.
  split; [| split].
  - intros arg Hx Hy.
    destruct (new_CanvasNode_run arg h) as (n & h1 & Hrun & _ & Hn & Hframe).
    exists n, h1. split; [exact Hrun |]. split.
    + eapply finite_node_point; eassumption.
    + intros m. apply finite_node_frame. apply Hframe.
  - intros n a b Hfin Ha Hb.
    pose proof Hfin as (a0 & b0 & (o & Hn & _) & _).
    eexists. split; [apply move_run, Hn |]. split.
    + exists a, b. split; [| auto].
      eexists. split; [apply lookup_insert_eq | apply moved_fields].
    + intros m Hm. destruct (decide (m = n)) as [-> | Hne].
      * exists a, b. split; [| auto].
        eexists. split; [apply lookup_insert_eq | apply moved_fields].
      * revert Hm. apply finite_node_frame. intros o' Ho'.
        rewrite lookup_insert_ne; [assumption | congruence].
  - intros n Hfin.
    pose proof Hfin as (a0 & b0 & (o & Hn & Hx & Hy) & Ha & Hb).
    eexists _, _. split; [apply position_run, Hn |]. split.
    + rewrite Hx, Hy. simpl.
      eapply finite_node_point; [apply lookup_insert_eq | assumption..].
    + intros m. apply finite_node_frame. intros o' Ho'.
      rewrite lookup_insert_ne; [assumption |].
      apply not_eq_sym, (allocated_not_fresh _ _ _ Ho').
Qed.

Lemma finite_inputs_keep_fields_finite_witness :
  let h : heap := {[ 1%positive := point (Num 0) (Num 0) ]} in
  (exists n h1,
      new_CanvasNode (Some (Config (Some 10%float) None)) h = Ok (Ref n, h1) /\
      finite_node h1 n /\
      (forall m, finite_node h m -> finite_node h1 m)) /\
  (exists h1,
      CanvasNode.move (Ref 1%positive) 10 20 h = Ok (tt, h1) /\
      finite_node h1 1%positive /\
      (forall m, finite_node h m -> finite_node h1 m)) /\
  (exists r h1,
      CanvasNode.position (Ref 1%positive) h = Ok (Ref r, h1) /\
      finite_node h1 r /\
      (forall m, finite_node h m -> finite_node h1 m)).
Proof.
  intros h.
  assert (Hfin : finite_node h 1%positive)
    by (apply (finite_node_point _ _ 0%float 0%float); reflexivity).
  destruct (finite_inputs_keep_fields_finite h) as (Hnew & Hmove & Hquery).
  split; [| split].
  - apply (Hnew (Some (Config (Some 10%float) None))); reflexivity.
  - apply (Hmove 1%positive 10%float 20%float); [exact Hfin | reflexivity..].
  - apply (Hquery 1%positive); exact Hfin.
Defined.

(** ** Totality *)

Lemma well_typed_valid (h : heap) (v : value) : well_typed_position h v -> valid h v.
Proof.
  intros [-> | (p & o & a & b & -> & Hp & _)]; simpl; [exact I | eauto].
Qed.

(** The declared parameter type asks for both fields: a literal with only
    [x] does not match it. The constructor's body makes no such demand
    (see [constructor_run]), so such an argument is defaulted field by field
    all the same. *)
Lemma partial_literal_not_declared_type (h : heap) (p : loc) (a : number) :
  h !! p = Some (literal (Config (Some a) None)) ->
  ~ well_typed_position h (Ref p).
Proof.
  intros Hp [E | (p' & o & a' & b' & E & Hp' & _ & Hy)]; [discriminate |].
  injection E as <-. rewrite Hp in Hp'. injection Hp' as <-.
  discriminate Hy.
Qed.

(** C7. No operation fails on well-typed input, each under its own
    condition and in every heap: construction at a call site (no argument,
    or a configuration) returns a node; the constructor returns a node for
    every argument of the declared type, [undefined] included, whether or
    not the heap holds any node yet; on a node, the position query returns
    and [move] returns for any two numbers. None of them throws. *)
Theorem no_operation_fails (h : heap) :
  (forall arg, exists n h1, new_CanvasNode arg h = Ok (Ref n, h1)) /\
  (forall v, well_typed_position h v ->
     exists n h1, CanvasNode.constructor v h = Ok (Ref n, h1)) /\
  (forall n vx vy, node_at h n vx vy ->
     exists r h1, CanvasNode.position (Ref n) h = Ok (Ref r, h1)) /\
  (forall n vx vy a b, node_at h n vx vy ->
     exists h1, CanvasNode.move (Ref n) a b h = Ok (tt, h1)).
Proof.
  split; [| split; [| split]].
  - intros arg.
    destruct (new_CanvasNode_run arg h) as (n & h1 & Hrun & _). eauto.
  - intros v Hv. eexists _, _. apply constructor_run, well_typed_valid, Hv.
  - intros n vx vy (o & Hn & _). eexists _, _. apply position_run, Hn.
  - intros n vx vy a b (o & Hn & _). eexists. apply move_run, Hn.
Qed.

(** In the empty heap, where no node exists yet, [new CanvasNode()]
    returns; and in a heap with one point-shaped object, the constructor
    given that object, the getter and [move] return. *)
Lemma no_operation_fails_witness :
  let h : heap := {[ 1%positive := point (Num 10) (Num 20) ]} in
  well_typed_position ∅ Undefined /\
  (exists n h1, CanvasNode.constructor Undefined ∅ = Ok (Ref n, h1)) /\
  well_typed_position h (Ref 1%positive) /\
  node_at h 1%positive (Num 10) (Num 20) /\
  (exists n h1, CanvasNode.constructor (Ref 1%positive) h = Ok (Ref n, h1)) /\
  (exists r h1, CanvasNode.position (Ref 1%positive) h = Ok (Ref r, h1)) /\
  (exists h1, CanvasNode.move (Ref 1%positive) 3 4 h = Ok (tt, h1)).
Proof.
  intros h.
  assert (Hu : well_typed_position ∅ Undefined) by (left; reflexivity).
  assert (Hv : well_typed_position h (Ref 1%positive)).
  { right. exists 1%positive, (point (Num 10) (Num 20)), 10%float, 20%float.
    repeat split; reflexivity. }
  assert (Hn : node_at h 1%positive (Num 10) (Num 20)).
  { exists (point (Num 10) (Num 20)). repeat split; reflexivity. }
  destruct (no_operation_fails ∅) as (_ & Hnew0 & _).
  destruct (no_operation_fails h) as (_ & Hnew & Hget & Hmove).
  split; [exact Hu |]. split; [exact (Hnew0 _ Hu) |].
  split; [exact Hv |]. split; [exact Hn |].
  split; [exact (Hnew _ Hv) |]. split; [exact (Hget _ _ _ Hn) |].
  exact (Hmove _ _ _ 3%float 4%float Hn).
Defined.

(** ** Construct-then-move against direct construction *)

Lemma default_then_move_run (a b : number) (h : heap) :
  (n <- CanvasNode.constructor Undefined ;; CanvasNode.move n a b ;;; ret n) h =
  Ok (Ref (fresh (dom h)), <[fresh (dom h) := point (Num a) (Num b)]> h).
Proof.
  rewrite (bind_run _ _ _ _ _ (constructor_run h Undefined I)).
  rewrite (bind_run _ _ _ _ _
             (move_run _ _ _ a b (lookup_insert_eq _ _ _))).
  unfold ret. rewrite insert_insert_eq. simpl nullish_coalesce.
  rewrite point_assign. reflexivity.
Qed.

(** C9. For all numbers [a], [b]: a default node moved to [(a, b)] and a
    node constructed with [{x: a, y: b}] hold the same object, [{x: a, y: b}],
    whatever heaps the two are built in, and so answer the position query
    alike. *)
Theorem default_then_move_is_direct_construction (a b : number) (h h' : heap) :
  exists n1 h1 n2 h2 q1 q2,
    (n <- CanvasNode.constructor Undefined ;; CanvasNode.move n a b ;;; ret n) h =
    Ok (Ref n1, h1) /\
    new_CanvasNode (Some (Config (Some a) (Some b))) h' = Ok (Ref n2, h2) /\
    h1 !! n1 = Some (point (Num a) (Num b)) /\
    h2 !! n2 = Some (point (Num a) (Num b)) /\
    position_query (Ref n1) h1 = Ok (point (Num a) (Num b), q1) /\
    position_query (Ref n2) h2 = Ok (point (Num a) (Num b), q2).
Proof.
  destruct (new_CanvasNode_run (Some (Config (Some a) (Some b))) h')
    as (n2 & h2 & Hrun & _ & Hn2 & _). simpl in Hn2.
  pose proof (lookup_insert_eq h (fresh (dom h)) (point (Num a) (Num b))) as Hn1.
  eexists _, _, n2, h2, _, _.
  split; [apply default_then_move_run |]. split; [exact Hrun |].
  split; [exact Hn1 |]. split; [exact Hn2 |].
  split; apply node_at_query, node_at_point; assumption.
Qed.

(** ** Numbers are stored as they are *)

(** C10. Every value [v] of the number type is taken as it is: after
    [move(v, v)] on a default node, and after construction with
    [{x: v, y: v}], the position query returns [{x: v, y: v}]. [v] ranges
    over all of binary64; spelled out for NaN, Infinity and -Infinity, none
    of which is finite, and for NaN the stored field is NaN. *)
Theorem numbers_are_stored_verbatim (h : heap) :
  (forall v, exists h',
      (n <- CanvasNode.constructor Undefined ;;
       CanvasNode.move n v v ;;;
       position_query n) h = Ok (point (Num v) (Num v), h')) /\
  (forall v, exists h',
      (n <- new_CanvasNode (Some (Config (Some v) (Some v))) ;;
       position_query n) h = Ok (point (Num v) (Num v), h')) /\
  Forall (fun v =>
            is_finite v = false /\
            exists h',
              (n <- CanvasNode.constructor Undefined ;;
               CanvasNode.move n v v ;;;
               position_query n) h = Ok (point (Num v) (Num v), h'))
         [nan; infinity; neg_infinity] /\
  (exists s h' w,
      (n <- CanvasNode.constructor Undefined ;;
       CanvasNode.move n nan nan ;;;
       position_query n) h = Ok (s, h') /\
      s !! "x" = Some (Num w) /\ is_nan w = true).
Proof.
  assert (Hmove : forall v, exists h',
             (n <- CanvasNode.constructor Undefined ;;
              CanvasNode.move n v v ;;;
              position_query n) h = Ok (point (Num v) (Num v), h')).
  { intros v.
    rewrite (bind_run _ _ _ _ _ (constructor_run h Undefined I)).
    rewrite (bind_run _ _ _ _ _
               (move_run _ _ _ v v (lookup_insert_eq _ _ _))).
    rewrite insert_insert_eq. simpl nullish_coalesce. rewrite point_assign.
    eexists. apply node_at_query, node_at_point, lookup_insert_eq. }
  split; [exact Hmove |]. split; [| split].
  - intros v. apply (new_CanvasNode_query (Some (Config (Some v) (Some v)))).
  - repeat constructor; apply Hmove.
  - destruct (Hmove nan) as [h' Hh']. exists (point (Num nan) (Num nan)), h', nan.
    split; [exact Hh' |]. split; reflexivity.
Qed.

(** ** Runs do not depend on the heap they start in *)

Section Runs.

Implicit Types (h : heap) (o : object) (n l : loc) (ns : list value).

Lemma exec_new ns arg h :
  exists n h',
    exec ns (New arg) h =
    Ok (((ns ++ [Ref n])%list,
         point (Num (supplied_or_zero arg cfg_x))
               (Num (supplied_or_zero arg cfg_y))), h') /\
    h !! n = None /\
    h' !! n = Some (point (Num (supplied_or_zero arg cfg_x))
                          (Num (supplied_or_zero arg cfg_y))) /\
    (forall l o, h !! l = Some o -> h' !! l = Some o).
Proof.
  destruct (new_CanvasNode_run arg h) as (n & h' & Hrun & Hfresh & Hn & Hframe).
  exists n, h'. split; [| eauto]. simpl.
  rewrite (bind_run _ _ _ _ _ Hrun), (bind_run _ _ _ _ _ (read_run _ _ _ Hn)).
  reflexivity.
Qed.

Lemma exec_move_unbound ns i a b h :
  ns !! i = None -> exec ns (Move i a b) h = Throw TypeError.
Proof. intros Hi. simpl. rewrite Hi. reflexivity. Qed.

Lemma exec_move_bound ns i a b h l o :
  ns !! i = Some (Ref l) -> h !! l = Some o ->
  exec ns (Move i a b) h =
  Ok ((ns, <["y" := Num b]> (<["x" := Num a]> o)),
      <[l := <["y" := Num b]> (<["x" := Num a]> o)]> h).
Proof.
  intros Hi Hl. simpl. rewrite Hi. simpl default.
  rewrite (bind_run _ _ _ _ _ (move_run _ _ _ a b Hl)).
  rewrite (bind_run _ _ _ _ _ (read_run _ _ _ (lookup_insert_eq _ _ _))).
  reflexivity.
Qed.

Lemma exec_position_unbound ns i h :
  ns !! i = None -> exec ns (Position i) h = Throw TypeError.
Proof. intros Hi. simpl. rewrite Hi. reflexivity. Qed.

Lemma exec_position_bound ns i h l o :
  ns !! i = Some (Ref l) -> h !! l = Some o ->
  exec ns (Position i) h =
  Ok ((ns, snapshot_of o), <[fresh (dom h) := snapshot_of o]> h).
Proof.
  intros Hi Hl. simpl. rewrite Hi. simpl default.
  rewrite (bind_run _ _ _ _ _ (position_query_run _ _ _ Hl)). reflexivity.
Qed.

(** Agreement survives whatever leaves the listed objects alone. *)
Lemma same_node_frame h1 h2 h1' h2' v1 v2 :
  (forall l o, h1 !! l = Some o -> h1' !! l = Some o) ->
  (forall l o, h2 !! l = Some o -> h2' !! l = Some o) ->
  same_node h1 h2 v1 v2 -> same_node h1' h2' v1 v2.
Proof.
  intros F1 F2 (l1 & l2 & o & -> & -> & H1 & H2).
  exists l1, l2, o. auto.
Qed.

Lemma same_node_allocated_l h1 h2 ns1 ns2 l :
  Forall2 (same_node h1 h2) ns1 ns2 -> Ref l ∈ ns1 -> is_Some (h1 !! l).
Proof.
  intros HF Hin. apply list_elem_of_lookup in Hin as [i Hi].
  destruct (Forall2_lookup_l _ _ _ _ _ HF Hi) as (v2 & _ & l1 & l2 & o & E & _ & H1 & _).
  injection E as ->. eauto.
Qed.

Lemma same_node_allocated_r h1 h2 ns1 ns2 l :
  Forall2 (same_node h1 h2) ns1 ns2 -> Ref l ∈ ns2 -> is_Some (h2 !! l).
Proof.
  intros HF Hin. apply list_elem_of_lookup in Hin as [i Hi].
  destruct (Forall2_lookup_r _ _ _ _ _ HF Hi) as (v1 & _ & l1 & l2 & o & _ & E & _ & H2).
  injection E as ->. eauto.
Qed.

Lemma NoDup_snoc_fresh h ns n :
  (forall l, Ref l ∈ ns -> is_Some (h !! l)) -> h !! n = None ->
  NoDup ns -> NoDup (ns ++ [Ref n])%list.
Proof.
  intros Hall Hn Hnd. apply NoDup_app. split; [assumption |]. split.
  - intros v Hv Hv'. apply list_elem_of_singleton in Hv' as ->.
    destruct (Hall _ Hv) as [o Ho]. congruence.
  - apply NoDup_singleton.
Qed.

Lemma alloc_frame h o l o' :
  h !! l = Some o' -> <[fresh (dom h) := o]> h !! l = Some o'.
Proof.
  intros Hl. rewrite lookup_insert_ne; [assumption |].
  apply not_eq_sym, (allocated_not_fresh _ _ _ Hl).
Qed.

Lemma same_node_unbound h1 h2 ns1 ns2 i :
  Forall2 (same_node h1 h2) ns1 ns2 -> ns1 !! i = None -> ns2 !! i = None.
Proof.
  intros HF Hi. apply lookup_ge_None. apply lookup_ge_None in Hi.
  rewrite <- (Forall2_length _ _ _ HF). exact Hi.
Qed.

(** A move at index [i] changes the object listed there, in both runs. *)
Lemma same_nodes_move h1 h2 ns1 ns2 i l1 l2 o o' :
  same_nodes h1 h2 ns1 ns2 ->
  ns1 !! i = Some (Ref l1) -> ns2 !! i = Some (Ref l2) ->
  same_nodes (<[l1 := o']> h1) (<[l2 := o']> h2) ns1 ns2.
Proof.
  intros (HF & Hnd1 & Hnd2) Hi1 Hi2. split; [| split; assumption].
  apply Forall2_same_length_lookup in HF as [Hlen HF].
  apply Forall2_same_length_lookup. split; [exact Hlen |].
  intros j w1 w2 Hj1 Hj2.
  destruct (HF j w1 w2 Hj1 Hj2) as (m1 & m2 & oj & -> & -> & Hm1 & Hm2).
  destruct (decide (j = i)) as [-> | Hne].
  - rewrite Hi1 in Hj1. rewrite Hi2 in Hj2.
    injection Hj1 as ->. injection Hj2 as ->.
    exists m1, m2, o'. rewrite !lookup_insert_eq. auto.
  - exists m1, m2, oj. split; [reflexivity |]. split; [reflexivity |]. split.
    + rewrite lookup_insert_ne; [assumption |].
      intros ->. apply Hne. exact (NoDup_lookup _ _ _ _ Hnd1 Hj1 Hi1).
    + rewrite lookup_insert_ne; [assumption |].
      intros ->. apply Hne. exact (NoDup_lookup _ _ _ _ Hnd2 Hj2 Hi2).
Qed.

(** One operation keeps two agreeing runs in agreement. *)
Lemma exec_same (t : op) ns1 ns2 h1 h2 :
  same_nodes h1 h2 ns1 ns2 ->
  same_outcome (exec ns1 t h1) (exec ns2 t h2).
Proof.
  intros Hsame. pose proof Hsame as (HF & Hnd1 & Hnd2).
  destruct t as [arg | i a b | i].
  - destruct (exec_new ns1 arg h1) as (n1 & h1' & -> & Hf1 & Hn1 & F1).
    destruct (exec_new ns2 arg h2) as (n2 & h2' & -> & Hf2 & Hn2 & F2).
    simpl. split; [reflexivity |]. split; [| split].
    + apply Forall2_app.
      * eapply Forall2_impl; [exact HF |].
        intros v1 v2. apply same_node_frame; assumption.
      * constructor; [| constructor]. eexists n1, n2, _. eauto.
    + eapply NoDup_snoc_fresh; eauto using same_node_allocated_l.
    + eapply NoDup_snoc_fresh; eauto using same_node_allocated_r.
  - destruct (ns1 !! i) as [v1 |] eqn:Hi1.
    + destruct (Forall2_lookup_l _ _ _ _ _ HF Hi1)
        as (v2 & Hi2 & l1 & l2 & o & -> & -> & Hl1 & Hl2).
      rewrite (exec_move_bound _ _ a b _ _ _ Hi1 Hl1).
      rewrite (exec_move_bound _ _ a b _ _ _ Hi2 Hl2).
      simpl. split; [reflexivity |].
      eapply same_nodes_move; eassumption.
    + rewrite (exec_move_unbound _ _ a b h1 Hi1).
      rewrite (exec_move_unbound _ _ a b h2 (same_node_unbound _ _ _ _ _ HF Hi1)).
      reflexivity.
  - destruct (ns1 !! i) as [v1 |] eqn:Hi1.
    + destruct (Forall2_lookup_l _ _ _ _ _ HF Hi1)
        as (v2 & Hi2 & l1 & l2 & o & -> & -> & Hl1 & Hl2).
      rewrite (exec_position_bound _ _ _ _ _ Hi1 Hl1).
      rewrite (exec_position_bound _ _ _ _ _ Hi2 Hl2).
      simpl. split; [reflexivity |]. split; [| split; assumption].
      eapply Forall2_impl; [exact HF |].
      intros w1 w2. apply same_node_frame; intros l o'; apply alloc_frame.
    + rewrite (exec_position_unbound _ _ h1 Hi1).
      rewrite (exec_position_unbound _ _ h2 (same_node_unbound _ _ _ _ _ HF Hi1)).
      reflexivity.
Qed.

(** So does a whole sequence. *)
Lemma run_same (ops : list op) ns1 ns2 h1 h2 :
  same_nodes h1 h2 ns1 ns2 ->
  same_outcome (run ns1 ops h1) (run ns2 ops h2).
Proof.
  revert ns1 ns2 h1 h2. induction ops as [| t ops IH]; intros ns1 ns2 h1 h2 Hsame.
  - simpl. split; [reflexivity | assumption].
  - pose proof (exec_same t _ _ _ _ Hsame) as Hexec.
    simpl. unfold bind at 1 3.
    destruct (exec ns1 t h1) as [[[ns1' s1] h1'] | e1],
             (exec ns2 t h2) as [[[ns2' s2] h2'] | e2];
      simpl in Hexec; try contradiction; [| assumption].
    destruct Hexec as [<- Hsame'].
    pose proof (IH _ _ _ _ Hsame') as Hrun.
    simpl fst. simpl snd. unfold bind.
    destruct (run ns1' ops h1') as [[[ns1'' ss1] h1''] | e1],
             (run ns2' ops h2') as [[[ns2'' ss2] h2''] | e2];
      simpl in Hrun; try contradiction; [| assumption].
    destruct Hrun as [<- Hsame'']. simpl. split; [reflexivity | assumption].
Qed.

End Runs.

(** C8. A sequence of constructions, moves and position queries is run
    twice, from any two heaps (the second run of a program starts in the
    heap the first one left). Both runs end the same way: with the same
    exception, or with the same reports, one per operation: the state of
    the node built or moved, or the snapshot returned, compared by value. *)
Theorem runs_are_deterministic (ops : list op) (h1 h2 : heap) :
  observe ops h1 = observe ops h2.
Proof.
  assert (Hsame : same_nodes h1 h2 [] [])
    by (split; [constructor | split; constructor]).
  pose proof (run_same ops _ _ _ _ Hsame) as Hrun.
  unfold observe.
  destruct (run [] ops h1) as [[[ns1 ss1] h1'] | e1],
           (run [] ops h2) as [[[ns2 ss2] h2'] | e2];
    simpl in *; try contradiction.
  - destruct Hrun as [-> _]. reflexivity.
  - congruence.
Qed.

(** * Further properties of the class *)

Section Argument.

Implicit Types (h : heap) (o : object) (n p l : loc) (v w : value).

(** ** The constructor and its argument *)

(** X1. The constructor copies two values out of its argument and keeps no
    reference to it: the argument's object is left as it was, the node is
    another object, assignments to the argument afterwards do not reach the
    node, and moving the node does not reach the argument. *)
Theorem constructor_does_not_share_its_argument h p o :
  h !! p = Some o ->
  exists n h1 s,
    CanvasNode.constructor (Ref p) h = Ok (Ref n, h1) /\
    n <> p /\ h !! n = None /\
    h1 !! p = Some o /\ h1 !! n = Some s /\
    (forall ws, exists h2 h3,
        assign_all (Ref p) ws h1 = Ok (tt, h2) /\
        h2 !! n = Some s /\
        position_query (Ref n) h2 = Ok (snapshot_of s, h3)) /\
    (forall a b, exists h2,
        CanvasNode.move (Ref n) a b h1 = Ok (tt, h2) /\ h2 !! p = Some o).
Proof.
  intros Hp.
  pose proof (fresh_unallocated h) as Hn. set (n := fresh (dom h)) in *.
  assert (Hnp : n <> p) by congruence.
  eexists n, _, _. split; [apply constructor_run; exists o; exact Hp |].
  fold n. split; [exact Hnp |]. split; [exact Hn |].
  set (s := point _ _). set (h1 := <[n := s]> h).
  assert (Hp1 : h1 !! p = Some o)
    by (unfold h1; rewrite lookup_insert_ne; assumption).
  assert (Hn1 : h1 !! n = Some s) by apply lookup_insert_eq.
  split; [exact Hp1 |]. split; [exact Hn1 |]. split.
  - intros ws. destruct (assign_all_run ws h1 p _ Hp1) as [o' Ho'].
    assert (Hn2 : <[p := o']> h1 !! n = Some s)
      by (rewrite lookup_insert_ne; [assumption | congruence]).
    eexists _, _. split; [exact Ho' |]. split; [exact Hn2 |].
    apply position_query_run, Hn2.
  - intros a b. eexists. split; [apply move_run, Hn1 |].
    rewrite lookup_insert_ne; assumption.
Qed.

Lemma constructor_does_not_share_its_argument_witness :
  let h : heap := {[ 1%positive := point (Num 10) (Num 20) ]} in
  h !! 1%positive = Some (point (Num 10) (Num 20)) /\
  exists n h1 s,
    CanvasNode.constructor (Ref 1%positive) h = Ok (Ref n, h1) /\
    n <> 1%positive /\ h !! n = None /\
    h1 !! 1%positive = Some (point (Num 10) (Num 20)) /\ h1 !! n = Some s /\
    (forall ws, exists h2 h3,
        assign_all (Ref 1%positive) ws h1 = Ok (tt, h2) /\
        h2 !! n = Some s /\
        position_query (Ref n) h2 = Ok (snapshot_of s, h3)) /\
    (forall a b, exists h2,
        CanvasNode.move (Ref n) a b h1 = Ok (tt, h2) /\
        h2 !! 1%positive = Some (point (Num 10) (Num 20))).
Proof.
  split; [reflexivity |].
  apply (constructor_does_not_share_its_argument _ 1%positive
           (point (Num 10) (Num 20))).
  reflexivity.
Defined.

(** X2. [null], like [undefined], is let through by [?.]: the constructor
    called with either, or with a number in place of the object, does not
    throw and builds the node at (0, 0). *)
Theorem constructor_takes_null_for_no_argument h :
  forall v, (forall l, v <> Ref l) ->
    CanvasNode.constructor v h =
    Ok (Ref (fresh (dom h)), <[fresh (dom h) := point (Num 0) (Num 0)]> h).
Proof.
  intros v Hv. destruct v as [| | a | l]; [| | | destruct (Hv l); reflexivity];
    rewrite constructor_run by exact I; reflexivity.
Qed.

Lemma constructor_takes_null_for_no_argument_witness :
  CanvasNode.constructor Null ∅ =
  Ok (Ref (fresh (dom (∅ : heap))),
      <[fresh (dom (∅ : heap)) := point (Num 0) (Num 0)]> ∅).
Proof.
  apply (constructor_takes_null_for_no_argument ∅ Null). discriminate.
Defined.

(** X3. Field by field: a property of the argument that is missing, or is
    [undefined] or [null], becomes 0; any other value, a supplied 0
    included, is stored as it is. The node has the two properties [x] and
    [y] and nothing else the argument may carry. *)
Theorem constructor_defaults_nullish_fields h p o :
  h !! p = Some o ->
  exists n h1 s,
    CanvasNode.constructor (Ref p) h = Ok (Ref n, h1) /\
    h1 !! n = Some s /\
    (forall k, k = "x" \/ k = "y" ->
       s !! k = Some (match o !! k with
                      | Some w => if nullish w then Num 0 else w
                      | None => Num 0
                      end)) /\
    (forall k, k <> "x" -> k <> "y" -> s !! k = None).
Proof.
  intros Hp.
  eexists _, _, _. split; [apply constructor_run; exists o; exact Hp |].
  split; [apply lookup_insert_eq |]. simpl chained. rewrite Hp. split.
  - intros k [-> | ->]; [rewrite point_x | rewrite point_y]; f_equal;
      destruct (o !! _) as [[| | a | l] |]; reflexivity.
  - intros k Hx Hy. unfold point.
    rewrite lookup_insert_ne by congruence.
    apply lookup_singleton_ne. congruence.
Qed.

Lemma constructor_defaults_nullish_fields_witness :
  let o : object := {[ "x" := Null; "y" := Num 0; "z" := Num 7 ]} in
  let h : heap := {[ 1%positive := o ]} in
  h !! 1%positive = Some o /\
  exists n h1 s,
    CanvasNode.constructor (Ref 1%positive) h = Ok (Ref n, h1) /\
    h1 !! n = Some s /\
    (forall k, k = "x" \/ k = "y" ->
       s !! k = Some (match o !! k with
                      | Some w => if nullish w then Num 0 else w
                      | None => Num 0
                      end)) /\
    (forall k, k <> "x" -> k <> "y" -> s !! k = None).
Proof.
  split; [reflexivity |].
  apply (constructor_defaults_nullish_fields _ 1%positive). reflexivity.
Defined.

End Argument.

Section Moves.

Implicit Types (h : heap) (o : object) (n m l : loc) (v w : value).

(** ** How moves compose *)

Lemma moved_twice o (a b c d : value) :
  <["y" := d]> (<["x" := c]> (<["y" := b]> (<["x" := a]> o))) =
  <["y" := d]> (<["x" := c]> o).
Proof.
  apply map_eq. intros k.
  destruct (decide (k = "y")) as [-> | Hy]; [rewrite !lookup_insert_eq; reflexivity |].
  destruct (decide (k = "x")) as [-> | Hx].
  - rewrite !(lookup_insert_ne _ "y" "x") by discriminate.
    rewrite !lookup_insert_eq. reflexivity.
  - rewrite !lookup_insert_ne by congruence. reflexivity.
Qed.

(** X4. A move forgets the one before it: two moves in a row leave the heap
    exactly as the second alone does (and so a repeated move changes
    nothing more). *)
Theorem last_move_wins h n o (a b c d : number) :
  h !! n = Some o ->
  (CanvasNode.move (Ref n) a b ;;; CanvasNode.move (Ref n) c d) h =
  CanvasNode.move (Ref n) c d h.
Proof.
  intros Hn.
  rewrite (bind_run _ _ _ _ _ (move_run _ _ _ a b Hn)).
  rewrite (move_run _ _ _ c d (lookup_insert_eq _ _ _)).
  rewrite (move_run _ _ _ c d Hn).
  rewrite insert_insert_eq, moved_twice. reflexivity.
Qed.

Lemma last_move_wins_witness :
  let h : heap := {[ 1%positive := point (Num 0) (Num 0) ]} in
  h !! 1%positive = Some (point (Num 0) (Num 0)) /\
  (CanvasNode.move (Ref 1%positive) 10 20 ;;;
   CanvasNode.move (Ref 1%positive) 30 40) h =
  CanvasNode.move (Ref 1%positive) 30 40 h.
Proof.
  split; [reflexivity |].
  apply (last_move_wins _ 1%positive (point (Num 0) (Num 0))). reflexivity.
Defined.

(** X5. Moves of two different nodes do not interfere: in either order they
    leave the same heap. *)
Theorem moves_of_distinct_nodes_commute h n m o o' (a b c d : number) :
  n <> m -> h !! n = Some o -> h !! m = Some o' ->
  (CanvasNode.move (Ref n) a b ;;; CanvasNode.move (Ref m) c d) h =
  (CanvasNode.move (Ref m) c d ;;; CanvasNode.move (Ref n) a b) h.
Proof.
  intros Hne Hn Hm.
  rewrite (bind_run _ _ _ _ _ (move_run _ _ _ a b Hn)).
  rewrite (bind_run _ _ _ _ _ (move_run _ _ _ c d Hm)).
  rewrite (move_run _ m o' c d), (move_run _ n o a b);
    [| rewrite lookup_insert_ne; [assumption | congruence]
     | rewrite lookup_insert_ne; [assumption | congruence]].
  rewrite insert_insert_ne by congruence. reflexivity.
Qed.

Lemma moves_of_distinct_nodes_commute_witness :
  let h : heap := {[ 1%positive := point (Num 0) (Num 0);
                     2%positive := point (Num 1) (Num 1) ]} in
  1%positive <> 2%positive /\
  h !! 1%positive = Some (point (Num 0) (Num 0)) /\
  h !! 2%positive = Some (point (Num 1) (Num 1)) /\
  (CanvasNode.move (Ref 1%positive) 10 20 ;;;
   CanvasNode.move (Ref 2%positive) 30 40) h =
  (CanvasNode.move (Ref 2%positive) 30 40 ;;;
   CanvasNode.move (Ref 1%positive) 10 20) h.
Proof.
  split; [discriminate |]. split; [reflexivity |]. split; [reflexivity |].
  apply (moves_of_distinct_nodes_commute _ 1%positive 2%positive
           (point (Num 0) (Num 0)) (point (Num 1) (Num 1)));
    [discriminate | reflexivity | reflexivity].
Defined.

(** X6. A move assigns [x] and [y] and does nothing else: afterwards the
    node's [x] and [y] are the two arguments, every other property of the
    node keeps its value, every other object is what it was, and no object
    was created or removed. *)
Theorem move_touches_only_x_and_y h n o (a b : number) :
  h !! n = Some o ->
  exists h1 o1,
    CanvasNode.move (Ref n) a b h = Ok (tt, h1) /\
    h1 !! n = Some o1 /\
    o1 !! "x" = Some (Num a) /\ o1 !! "y" = Some (Num b) /\
    (forall k, k <> "x" -> k <> "y" -> o1 !! k = o !! k) /\
    (forall l, l <> n -> h1 !! l = h !! l) /\
    dom h1 = dom h.
Proof.
  intros Hn. eexists _, _. split; [apply move_run, Hn |].
  split; [apply lookup_insert_eq |].
  split; [apply moved_fields |]. split; [apply moved_fields |].
  split; [| split].
  - intros k Hx Hy. rewrite !lookup_insert_ne by congruence. reflexivity.
  - intros l Hl. apply lookup_insert_ne. congruence.
  - rewrite dom_insert_L.
    apply subseteq_union_1_L, singleton_subseteq_l, elem_of_dom. eauto.
Qed.

Lemma move_touches_only_x_and_y_witness :
  let o : object := {[ "x" := Num 0; "y" := Num 0; "label" := Num 7 ]} in
  let h : heap := {[ 1%positive := o; 2%positive := point (Num 1) (Num 1) ]} in
  h !! 1%positive = Some o /\
  exists h1 o1,
    CanvasNode.move (Ref 1%positive) 10 20 h = Ok (tt, h1) /\
    h1 !! 1%positive = Some o1 /\
    o1 !! "x" = Some (Num 10) /\ o1 !! "y" = Some (Num 20) /\
    (forall k, k <> "x" -> k <> "y" -> o1 !! k = o !! k) /\
    (forall l, l <> 1%positive -> h1 !! l = h !! l) /\
    dom h1 = dom h.
Proof.
  split; [reflexivity |].
  apply (move_touches_only_x_and_y _ 1%positive). reflexivity.
Defined.

Lemma move_all_allocated (ms : list (number * number)) h n o :
  h !! n = Some o ->
  exists o1, move_all (Ref n) ms h = Ok (tt, <[n := o1]> h) /\
             snapshot_of o1 =
             match last ms with
             | Some (a, b) => point (Num a) (Num b)
             | None => snapshot_of o
             end.
Proof.
  revert h o. induction ms as [| [a b] ms IH]; intros h o Hn; simpl move_all.
  - exists o. unfold ret. rewrite insert_id by assumption. auto.
  - rewrite (bind_run _ _ _ _ _ (move_run _ _ _ a b Hn)).
    destruct (IH _ _ (lookup_insert_eq h n (<["y" := Num b]> (<["x" := Num a]> o))))
      as (o1 & Hrun & Hlast).
    exists o1. rewrite Hrun, insert_insert_eq. split; [reflexivity |].
    rewrite Hlast. destruct ms as [| [c d] ms'].
    + simpl. unfold snapshot_of.
      destruct (moved_fields o a b) as [-> ->]. reflexivity.
    + change (last ((a, b) :: (c, d) :: ms')) with (last ((c, d) :: ms')).
      destruct (last ((c, d) :: ms')) as [[c' d'] |] eqn:E; [reflexivity |].
      apply last_None in E. discriminate.
Qed.

(** X8. After any number of moves the position query returns the arguments of
    the last one, or, if there was none, what the node held. *)
Theorem position_is_where_the_last_move_went (ms : list (number * number)) h n o :
  h !! n = Some o ->
  exists h1 h2,
    move_all (Ref n) ms h = Ok (tt, h1) /\
    position_query (Ref n) h1 =
    Ok (match last ms with
        | Some (a, b) => point (Num a) (Num b)
        | None => snapshot_of o
        end, h2).
Proof.
  intros Hn. destruct (move_all_allocated ms h n o Hn) as (o1 & Hrun & Hlast).
  eexists _, _. split; [exact Hrun |].
  rewrite <- Hlast. apply position_query_run, lookup_insert_eq.
Qed.

Lemma position_is_where_the_last_move_went_witness :
  let h : heap := {[ 1%positive := point (Num 0) (Num 0) ]} in
  let ms := [(10, 20); (30, 40); (50, 60)]%float in
  h !! 1%positive = Some (point (Num 0) (Num 0)) /\
  exists h1 h2,
    move_all (Ref 1%positive) ms h = Ok (tt, h1) /\
    position_query (Ref 1%positive) h1 = Ok (point (Num 50) (Num 60), h2).
Proof.
  split; [reflexivity |].
  apply (position_is_where_the_last_move_went
           [(10, 20); (30, 40); (50, 60)]%float _ 1%positive
           (point (Num 0) (Num 0))).
  reflexivity.
Defined.

End Moves.

Section Copies.

Implicit Types (h : heap) (o : object) (n m p l : loc) (v w : value).

(** ** A snapshot can be fed back to the constructor *)

(** X9. The snapshot of a node with number fields has the type the constructor
    declares for its parameter, and [new CanvasNode(node.position)] is a
    copy: another object with the same [x] and [y]. The original is not
    touched by the copying, nor by moving the copy afterwards. *)
Theorem clone_is_an_independent_copy h n (a b : number) :
  node_at h n (Num a) (Num b) ->
  exists p m h1 h2,
    CanvasNode.position (Ref n) h = Ok (Ref p, h1) /\
    well_typed_position h1 (Ref p) /\
    clone (Ref n) h = Ok (Ref m, h2) /\
    m <> n /\ h !! m = None /\
    h2 !! m = Some (point (Num a) (Num b)) /\
    h2 !! n = h !! n /\
    (forall c d, exists h3 h4,
        CanvasNode.move (Ref m) c d h2 = Ok (tt, h3) /\
        h3 !! n = h !! n /\
        position_query (Ref n) h3 = Ok (point (Num a) (Num b), h4)).
Proof.
  intros Hnode. pose proof Hnode as (o & Hn & Hx & Hy).
  pose proof (fresh_unallocated h) as Hp. set (p := fresh (dom h)) in *.
  set (h1 := <[p := point (Num a) (Num b)]> h).
  assert (Hrun : CanvasNode.position (Ref n) h = Ok (Ref p, h1)).
  { rewrite (position_run _ _ _ Hn), Hx, Hy. reflexivity. }
  assert (Hp1 : h1 !! p = Some (point (Num a) (Num b))) by apply lookup_insert_eq.
  assert (Hn1 : h1 !! n = Some o)
    by (unfold h1; rewrite lookup_insert_ne; congruence).
  pose proof (fresh_unallocated h1) as Hm. set (m := fresh (dom h1)) in *.
  set (h2 := <[m := point (Num a) (Num b)]> h1).
  assert (Hclone : clone (Ref n) h = Ok (Ref m, h2)).
  { unfold clone. rewrite (bind_run _ _ _ _ _ Hrun).
    rewrite constructor_run by (simpl; eauto).
    simpl chained. rewrite Hp1. reflexivity. }
  assert (Hmn : m <> n) by congruence.
  assert (Hn2 : h2 !! n = Some o)
    by (unfold h2; rewrite lookup_insert_ne; congruence).
  exists p, m, h1, h2. split; [exact Hrun |]. split.
  { right. exists p, (point (Num a) (Num b)), a, b. auto using point_x, point_y. }
  split; [exact Hclone |]. split; [exact Hmn |]. split.
  { unfold h1 in Hm. apply lookup_insert_None in Hm. tauto. }
  split; [apply lookup_insert_eq |]. split; [congruence |].
  intros c d.
  assert (Hn3 : <[m := <["y" := Num d]> (<["x" := Num c]> (point (Num a) (Num b)))]> h2 !! n
                = Some o)
    by (rewrite lookup_insert_ne; congruence).
  eexists _, _. split; [apply move_run, lookup_insert_eq |].
  split; [congruence |].
  rewrite (position_query_run _ _ _ Hn3), Hx, Hy. reflexivity.
Qed.

Lemma clone_is_an_independent_copy_witness :
  let h : heap := {[ 1%positive := point (Num 10) (Num 20) ]} in
  node_at h 1%positive (Num 10) (Num 20) /\
  exists p m h1 h2,
    CanvasNode.position (Ref 1%positive) h = Ok (Ref p, h1) /\
    well_typed_position h1 (Ref p) /\
    clone (Ref 1%positive) h = Ok (Ref m, h2) /\
    m <> 1%positive /\ h !! m = None /\
    h2 !! m = Some (point (Num 10) (Num 20)) /\
    h2 !! 1%positive = h !! 1%positive /\
    (forall c d, exists h3 h4,
        CanvasNode.move (Ref m) c d h2 = Ok (tt, h3) /\
        h3 !! 1%positive = h !! 1%positive /\
        position_query (Ref 1%positive) h3 = Ok (point (Num 10) (Num 20), h4)).
Proof.
  intros h.
  assert (Hn : node_at h 1%positive (Num 10) (Num 20)).
  { exists (point (Num 10) (Num 20)). repeat split; reflexivity. }
  split; [exact Hn |].
  exact (clone_is_an_independent_copy h 1%positive 10%float 20%float Hn).
Defined.

(** ** What each operation allocates *)

(** X11. Objects are only ever added, one at a time: the constructor adds the
    node and the getter adds the snapshot, each at a location that was
    free, and neither changes an object that was there. *)
Theorem one_allocation_per_call h :
  (forall v, valid h v ->
     exists n h1,
       CanvasNode.constructor v h = Ok (Ref n, h1) /\
       (n ∉ dom h) /\ dom h1 = {[n]} ∪ dom h /\
       (forall l, l ∈ dom h -> h1 !! l = h !! l)) /\
  (forall v, valid h v -> nullish v = false ->
     exists r h1,
       CanvasNode.position v h = Ok (Ref r, h1) /\
       (r ∉ dom h) /\ dom h1 = {[r]} ∪ dom h /\
       (forall l, l ∈ dom h -> h1 !! l = h !! l)).
Proof.
  assert (Hframe : forall o l,
             l ∈ dom h -> <[fresh (dom h) := o]> h !! l = h !! l).
  { intros o l Hl. apply lookup_insert_ne. intros <-.
    exact (is_fresh (dom h) Hl). }
  split.
  - intros v Hv. eexists _, _. split; [apply constructor_run, Hv |].
    split; [apply is_fresh |]. split; [apply dom_insert_L | apply Hframe].
  - intros [| | a | l] Hv Hnull; try discriminate.
    + eexists _, _. split; [reflexivity |].
      split; [apply is_fresh |]. split; [apply dom_insert_L | apply Hframe].
    + destruct Hv as [o Hl].
      eexists _, _. split; [apply position_run, Hl |].
      split; [apply is_fresh |]. split; [apply dom_insert_L | apply Hframe].
Qed.

Lemma one_allocation_per_call_witness :
  let h : heap := {[ 1%positive := point (Num 10) (Num 20) ]} in
  (exists n h1,
      CanvasNode.constructor (Ref 1%positive) h = Ok (Ref n, h1) /\
      (n ∉ dom h) /\ dom h1 = {[n]} ∪ dom h /\
      (forall l, l ∈ dom h -> h1 !! l = h !! l)) /\
  (exists r h1,
      CanvasNode.position (Ref 1%positive) h = Ok (Ref r, h1) /\
      (r ∉ dom h) /\ dom h1 = {[r]} ∪ dom h /\
      (forall l, l ∈ dom h -> h1 !! l = h !! l)).
Proof.
  intros h.
  assert (Hv : valid h (Ref 1%positive)) by (eexists; reflexivity).
  destruct (one_allocation_per_call h) as (Hnew & Hget).
  split; [exact (Hnew _ Hv) | exact (Hget _ Hv eq_refl)].
Defined.

End Copies.

Section Scoping.

Implicit Types (h : heap) (o : object) (n l : loc) (ns : list value).

(** ** Programs that only use the nodes they built *)

Lemma nodes_allocated_frame h h' ns :
  (forall l, is_Some (h !! l) -> is_Some (h' !! l)) ->
  nodes_allocated h ns -> nodes_allocated h' ns.
Proof.
  intros Hframe Hns. eapply Forall_impl; [exact Hns |].
  intros v (l & -> & Hl). eauto.
Qed.

Lemma nodes_allocated_lookup h ns i :
  nodes_allocated h ns -> i < length ns ->
  exists l o, ns !! i = Some (Ref l) /\ h !! l = Some o.
Proof.
  intros Hns Hi. destruct (lookup_lt_is_Some_2 ns i Hi) as [v Hv].
  destruct (proj1 (Forall_lookup _ _) Hns i v Hv) as (l & -> & o & Hl). eauto.
Qed.

Lemma run_step (t : op) (ops : list op) ns h ns' s h' :
  exec ns t h = Ok ((ns', s), h') ->
  run ns (t :: ops) h =
  match run ns' ops h' with
  | Ok (rs, h'') => Ok ((fst rs, s :: snd rs), h'')
  | Throw e => Throw e
  end.
Proof.
  intros Hexec. simpl. rewrite (bind_run _ _ _ _ _ Hexec). simpl fst. simpl snd.
  unfold bind, ret. destruct (run ns' ops h') as [[rs h''] | e]; reflexivity.
Qed.

Lemma run_throw (t : op) (ops : list op) ns h e :
  exec ns t h = Throw e -> run ns (t :: ops) h = Throw e.
Proof. intros Hexec. simpl. unfold bind. rewrite Hexec. reflexivity. Qed.

Lemma run_scoped (ops : list op) ns h :
  nodes_allocated h ns ->
  if well_scoped (length ns) ops
  then exists ns' obs h',
         run ns ops h = Ok ((ns', obs), h') /\ length obs = length ops
  else run ns ops h = Throw TypeError.
Proof.
  revert ns h. induction ops as [| t ops IH]; intros ns h Hns.
  - simpl. eexists _, _, _. split; reflexivity.
  - destruct t as [arg | i a b | i]; simpl well_scoped.
    + destruct (exec_new ns arg h) as (n & h' & Hexec & _ & Hn & Hframe).
      rewrite (run_step _ ops _ _ _ _ _ Hexec).
      assert (Hns' : nodes_allocated h' (ns ++ [Ref n])).
      { apply Forall_app. split.
        - revert Hns. apply nodes_allocated_frame. intros l [o Hl]. eauto.
        - constructor; [eauto | constructor]. }
      specialize (IH _ _ Hns'). rewrite length_app, Nat.add_1_r in IH.
      destruct (well_scoped (S (length ns)) ops).
      * destruct IH as (ns' & obs & h'' & -> & Hlen).
        eexists _, _, _. split; [reflexivity |]. simpl. congruence.
      * rewrite IH. reflexivity.
    + destruct (Nat.ltb_spec i (length ns)) as [Hi | Hi]; simpl andb.
      * destruct (nodes_allocated_lookup _ _ _ Hns Hi) as (l & o & Hl & Ho).
        rewrite (run_step _ ops _ _ _ _ _ (exec_move_bound _ _ a b _ _ _ Hl Ho)).
        match goal with |- context [run ns ops ?h'] =>
          assert (Hns' : nodes_allocated h' ns)
        end.
        { revert Hns. apply nodes_allocated_frame. intros l' Hl'.
          apply lookup_insert_is_Some. destruct (decide (l = l')); auto. }
        specialize (IH _ _ Hns').
        destruct (well_scoped (length ns) ops).
        -- destruct IH as (ns' & obs & h'' & -> & Hlen).
           eexists _, _, _. split; [reflexivity |]. simpl. congruence.
        -- rewrite IH. reflexivity.
      * apply run_throw, exec_move_unbound, lookup_ge_None. exact Hi.
    + destruct (Nat.ltb_spec i (length ns)) as [Hi | Hi]; simpl andb.
      * destruct (nodes_allocated_lookup _ _ _ Hns Hi) as (l & o & Hl & Ho).
        rewrite (run_step _ ops _ _ _ _ _ (exec_position_bound _ _ _ _ _ Hl Ho)).
        match goal with |- context [run ns ops ?h'] =>
          assert (Hns' : nodes_allocated h' ns)
        end.
        { revert Hns. apply nodes_allocated_frame. intros l' [o' Hl'].
          exists o'. apply alloc_frame, Hl'. }
        specialize (IH _ _ Hns').
        destruct (well_scoped (length ns) ops).
        -- destruct IH as (ns' & obs & h'' & -> & Hlen).
           eexists _, _, _. split; [reflexivity |]. simpl. congruence.
        -- rewrite IH. reflexivity.
      * apply run_throw, exec_position_unbound, lookup_ge_None. exact Hi.
Qed.

(** X12. A program of constructions, moves and queries in which every index
    names a node built earlier runs to the end, in any heap, and reports
    once per operation; one that uses an index before the node exists stops
    with a [TypeError]. Nothing else can go wrong in a sequence. *)
Theorem programs_throw_only_on_unbuilt_nodes (ops : list op) h :
  if well_scoped 0 ops
  then exists obs, observe ops h = Ok obs /\ length obs = length ops
  else observe ops h = Throw TypeError.
Proof.
  pose proof (run_scoped ops [] h (Forall_nil_2 _)) as Hrun.
  unfold observe. simpl length in Hrun.
  destruct (well_scoped 0 ops).
  - destruct Hrun as (ns' & obs & h' & -> & Hlen). eauto.
  - rewrite Hrun. reflexivity.
Qed.

End Scoping.

(** ** Moving back *)

(** X7. Moving a node to where it is changes nothing, and moving it away and
    back restores the heap exactly. *)
Theorem move_back_restores_the_heap (h : heap) (n : loc) (a b c d : number) :
  node_at h n (Num a) (Num b) ->
  CanvasNode.move (Ref n) a b h = Ok (tt, h) /\
  (CanvasNode.move (Ref n) c d ;;; CanvasNode.move (Ref n) a b) h = Ok (tt, h).
Proof.
  intros (o & Hn & Hx & Hy).
  assert (Hstay : CanvasNode.move (Ref n) a b h = Ok (tt, h)).
  { rewrite (move_run _ _ _ a b Hn).
    rewrite (insert_id o "x") by assumption.
    rewrite (insert_id o "y") by assumption.
    rewrite insert_id by assumption. reflexivity. }
  split; [exact Hstay |].
  rewrite (bind_run _ _ _ _ _ (move_run _ _ _ c d Hn)).
  rewrite (move_run _ _ _ a b (lookup_insert_eq _ _ _)).
  rewrite insert_insert_eq, moved_twice.
  rewrite <- (move_run _ _ _ a b Hn). exact Hstay.
Qed.

Lemma move_back_restores_the_heap_witness :
  let h : heap := {[ 1%positive := point (Num 10) (Num 20) ]} in
  node_at h 1%positive (Num 10) (Num 20) /\
  CanvasNode.move (Ref 1%positive) 10 20 h = Ok (tt, h) /\
  (CanvasNode.move (Ref 1%positive) 30 40 ;;;
   CanvasNode.move (Ref 1%positive) 10 20) h = Ok (tt, h).
Proof.
  intros h.
  assert (Hn : node_at h 1%positive (Num 10) (Num 20)).
  { exists (point (Num 10) (Num 20)). repeat split; reflexivity. }
  split; [exact Hn |].
  exact (move_back_restores_the_heap h 1%positive 10%float 20%float
           30%float 40%float Hn).
Defined.

(** ** The total price *)

Lemma SFmul_comm (prec emax : Z) (x y : spec_float) :
  SFmul prec emax x y = SFmul prec emax y x.
Proof.
  destruct x as [sx | sx | | sx mx ex], y as [sy | sy | | sy my ey];
    simpl; try reflexivity; try (rewrite xorb_comm; reflexivity).
  rewrite xorb_comm, Pos.mul_comm, Z.add_comm. reflexivity.
Qed.

(** X13. [sellAlbum] returns the binary64 product of price and quantity,
    whatever the album is, and reads or writes nothing; the total is the
    same whichever of price and quantity comes first. *)
Theorem sellAlbum_is_symmetric (album album' : value) (price quantity : number)
    (h : heap) :
  sellAlbum album price quantity h = Ok (Num (price * quantity), h) /\
  sellAlbum album price quantity h = sellAlbum album' quantity price h /\
  (price * quantity = quantity * price)%float.
Proof.
  assert (Hcomm : (price * quantity = quantity * price)%float).
  { apply Prim2SF_inj. rewrite !mul_spec. apply SFmul_comm. }
  split; [reflexivity |]. split; [| exact Hcomm].
  unfold sellAlbum, ret. rewrite Hcomm. reflexivity.
Qed.

(** X14. A NaN price or quantity makes the total NaN, whatever the other is;
    so does an infinite price with a quantity of zero: the total is not
    0 then. *)
Theorem sellAlbum_propagates_NaN (album : value) (h : heap) :
  (forall quantity, sellAlbum album nan quantity h = Ok (Num nan, h)) /\
  (forall price, sellAlbum album price nan h = Ok (Num nan, h)) /\
  (forall price q, is_infinity price = true -> is_zero q = true ->
     sellAlbum album price q h = Ok (Num nan, h)).
Proof.
  assert (Hnan : forall q, (nan * q)%float = nan).
  { intros q. apply Prim2SF_inj. rewrite mul_spec. reflexivity. }
  split; [| split].
  - intros q. unfold sellAlbum, ret. rewrite Hnan. reflexivity.
  - intros p. unfold sellAlbum, ret. do 3 f_equal.
    apply Prim2SF_inj. rewrite mul_spec.
    change (Prim2SF nan) with S754_nan. destruct (Prim2SF p); reflexivity.
  - intros p q Hp Hq. unfold sellAlbum, ret. do 3 f_equal.
    apply Prim2SF_inj. rewrite mul_spec.
    unfold is_infinity in Hp. rewrite FloatAxioms.eqb_spec, FloatAxioms.abs_spec in Hp.
    unfold is_zero in Hq. rewrite FloatAxioms.eqb_spec in Hq.
    change (Prim2SF infinity) with (S754_infinity false) in Hp.
    change (Prim2SF 0) with (S754_zero false) in Hq.
    change (Prim2SF nan) with S754_nan.
    destruct (Prim2SF p) as [sp | sp | | sp mp ep],
             (Prim2SF q) as [sq | sq | | sq mq eq];
      try destruct sp; try destruct sq; try discriminate; reflexivity.
Qed.

Lemma sellAlbum_propagates_NaN_witness :
  sellAlbum Undefined nan 3 ∅ = Ok (Num nan, ∅) /\
  sellAlbum Undefined 3 nan ∅ = Ok (Num nan, ∅) /\
  sellAlbum Undefined neg_infinity (-0) ∅ = Ok (Num nan, ∅).
Proof.
  destruct (sellAlbum_propagates_NaN Undefined ∅) as (Hl & Hr & Hinf).
  split; [apply Hl |]. split; [apply Hr |].
  apply Hinf; reflexivity.
Defined.

